(** * Newsletter sign-up widget: the form controller of [sample.js]

    A shallow embedding of the script: the email-shape check (a regular
    expression run by a backtracking matcher in the style of the ECMAScript
    specification), the four event listeners, and the part of the document
    they read and write.

    - A string is a list of UTF-16 code units.
    - The document is a record of the six elements the script touches; a
      property holds the string last assigned to it. Listeners are
      functions from documents to documents; the submit listener also
      gives back its event, with the flag [preventDefault] sets.
    - The markup and the style sheet are not part of the sources: what a
      region's visibility is, and what a browser does by default with an
      event the script has not cancelled, is outside the script. *)

From Stdlib Require Import String Ascii NArith Bool Arith Lia List.
Import ListNotations.
Open Scope N_scope.

(** ** Strings

    A JavaScript string is a sequence of UTF-16 code units. *)

Definition code_unit := N.
Definition js_string := list code_unit.

(** A string literal of the script (ASCII only). *)
Definition lit (s : string) : js_string :=
  map N_of_ascii (list_ascii_of_string s).

(** [a === b] on strings. *)
Fixpoint strict_equals (a b : js_string) : bool :=
  match a, b with
  | [], [] => true
  | x :: a', y :: b' => (x =? y) && strict_equals a' b'
  | _, _ => false
  end.

Infix "===" := strict_equals (at level 70, no associativity).

(** ** The document

    The inline style properties, the properties and the class list that the
    script reads or writes. *)

Record Style := {
  display : js_string;
  borderColor : js_string;
  backgroundColor : js_string
}.

Record Element := {
  value : js_string;
  textContent : js_string;
  style : Style;
  classList : list js_string
}.

Definition set_display (v : js_string) (s : Style) : Style :=
  {| display := v; borderColor := borderColor s;
     backgroundColor := backgroundColor s |}.
Definition set_borderColor (v : js_string) (s : Style) : Style :=
  {| display := display s; borderColor := v;
     backgroundColor := backgroundColor s |}.
Definition set_backgroundColor (v : js_string) (s : Style) : Style :=
  {| display := display s; borderColor := borderColor s;
     backgroundColor := v |}.

Definition set_value (v : js_string) (e : Element) : Element :=
  {| value := v; textContent := textContent e; style := style e;
     classList := classList e |}.
Definition set_textContent (v : js_string) (e : Element) : Element :=
  {| value := value e; textContent := v; style := style e;
     classList := classList e |}.
Definition with_style (f : Style -> Style) (e : Element) : Element :=
  {| value := value e; textContent := textContent e; style := f (style e);
     classList := classList e |}.

(** DOMTokenList.contains, add and remove. *)
Definition contains (token : js_string) (l : list js_string) : bool :=
  existsb (fun t => t === token) l.
Definition classList_add (token : js_string) (e : Element) : Element :=
  {| value := value e; textContent := textContent e; style := style e;
     classList := if contains token (classList e) then classList e
                  else classList e ++ [token] |}.
Definition classList_remove (token : js_string) (e : Element) : Element :=
  {| value := value e; textContent := textContent e; style := style e;
     classList := filter (fun t => negb (t === token)) (classList e) |}.

(** The elements the script binds at load time ([emailInput],
    [errorMessage], [successMessage], [emailDisplay]) and the two it looks
    up inside its functions (['main-area'] and ['section .header-img']).
    They are six different nodes. [submitBtn] and [dismissBtn] only carry
    listeners. *)
Record Document := {
  emailInput : Element;
  errorMessage : Element;
  successMessage : Element;
  emailDisplay : Element;
  main_area : Element;
  header_img : Element
}.

Definition with_emailInput (f : Element -> Element) (d : Document) :=
  {| emailInput := f (emailInput d); errorMessage := errorMessage d;
     successMessage := successMessage d; emailDisplay := emailDisplay d;
     main_area := main_area d; header_img := header_img d |}.
Definition with_errorMessage (f : Element -> Element) (d : Document) :=
  {| emailInput := emailInput d; errorMessage := f (errorMessage d);
     successMessage := successMessage d; emailDisplay := emailDisplay d;
     main_area := main_area d; header_img := header_img d |}.
Definition with_successMessage (f : Element -> Element) (d : Document) :=
  {| emailInput := emailInput d; errorMessage := errorMessage d;
     successMessage := f (successMessage d); emailDisplay := emailDisplay d;
     main_area := main_area d; header_img := header_img d |}.
Definition with_emailDisplay (f : Element -> Element) (d : Document) :=
  {| emailInput := emailInput d; errorMessage := errorMessage d;
     successMessage := successMessage d; emailDisplay := f (emailDisplay d);
     main_area := main_area d; header_img := header_img d |}.
Definition with_main_area (f : Element -> Element) (d : Document) :=
  {| emailInput := emailInput d; errorMessage := errorMessage d;
     successMessage := successMessage d; emailDisplay := emailDisplay d;
     main_area := f (main_area d); header_img := header_img d |}.
Definition with_header_img (f : Element -> Element) (d : Document) :=
  {| emailInput := emailInput d; errorMessage := errorMessage d;
     successMessage := successMessage d; emailDisplay := emailDisplay d;
     main_area := main_area d; header_img := f (header_img d) |}.

(** Events: the flag that [preventDefault] sets, and the key of a keyboard
    event. *)
Record Event := { defaultPrevented : bool }.
Record KeyboardEvent := { key : js_string; keyDefaultPrevented : bool }.

Definition preventDefault (_ : Event) : Event := {| defaultPrevented := true |}.

(** ** What the page shows *)

(** Modelled from the spec: the style sheet is not among the sources. The
    form region is shown unless its inline [display] is ['none']. *)
Definition form_visible (d : Document) : bool :=
  negb (display (style (main_area d)) === lit "none").

(** Modelled from the spec: the style sheet is not among the sources. The
    ['hidden'] marker hides the success region; without it the region is
    shown. *)
Definition success_visible (d : Document) : bool :=
  negb (contains (lit "hidden") (classList (successMessage d))).

(** Modelled from the spec: the style sheet is not among the sources. The
    header decoration is shown unless its inline [display] is ['none']. *)
Definition header_visible (d : Document) : bool :=
  negb (display (style (header_img d)) === lit "none").

(** Modelled from the spec: the style sheet is not among the sources. The
    error region is hidden by default (so says the comment in [showError])
    and shown by the inline [display] ['block']. *)
Definition error_region_shown (d : Document) : bool :=
  display (style (errorMessage d)) === lit "block".

Inductive ViewState := FormVisible | SuccessVisible.

(** The view a document is in, when exactly one of the two regions shows. *)
Definition view_state (d : Document) : option ViewState :=
  match form_visible d, success_visible d with
  | true, false => Some FormVisible
  | false, true => Some SuccessVisible
  | _, _ => None
  end.

(** The error decoration of the input, and its neutral style. *)
Definition error_decoration (d : Document) : bool :=
  (borderColor (style (emailInput d)) === lit "#FF6155")
  && (backgroundColor (style (emailInput d)) === lit "#FFE8E6").
Definition neutral_decoration (d : Document) : bool :=
  (borderColor (style (emailInput d)) === lit "hsl(0, 0%, 58%)")
  && (backgroundColor (style (emailInput d)) === lit "transparent").

(** ErrorShown(message): the message is in the error region, the region is
    shown and the input carries the error decoration. *)
Definition ErrorShown (message : js_string) (d : Document) : bool :=
  (textContent (errorMessage d) === message)
  && error_region_shown d && error_decoration d.

(** The state [clearError] leaves: the text empty, the region hidden by an
    inline ['none'], the input neutral. *)
Definition ErrorCleared (d : Document) : bool :=
  (textContent (errorMessage d) === lit "")
  && (display (style (errorMessage d)) === lit "none")
  && neutral_decoration d.

(** NoError: no message, the region not shown, and neither colour of the
    error decoration on the input. It holds of a freshly loaded page, where
    no inline style is set, as well as after [clearError]. *)
Definition NoError (d : Document) : bool :=
  (textContent (errorMessage d) === lit "")
  && negb (error_region_shown d)
  && negb (borderColor (style (emailInput d)) === lit "#FF6155")
  && negb (backgroundColor (style (emailInput d)) === lit "#FFE8E6").

(** ** Regular expressions

    The fragment of the pattern grammar that [emailRegex] uses: the two
    anchors, pattern characters, identity escapes, character classes with
    single characters, ranges and [\s], and the greedy quantifiers [{n,}]
    ([+] is [{1,}]). *)

Inductive ClassAtom :=
| ClassChar (c : code_unit)
| ClassRange (lo hi : code_unit)
| ClassSpace.                      (* \s *)

Inductive Atom :=
| PatternCharacter (c : code_unit)
| IdentityEscape (c : code_unit)
| CharacterClass (invert : bool) (items : list ClassAtom).

Inductive Term :=
| AssertStart                       (* ^ *)
| AssertEnd                         (* $ *)
| Single (a : Atom)
| AtLeast (min : nat) (a : Atom).   (* a{min,} *)

Record RegExp := {
  source : list Term;
  ignoreCase : bool                 (* the i flag *)
}.

(** The code units of [lo-hi]. *)
Definition range (lo hi : code_unit) : list code_unit :=
  map N.of_nat (seq (N.to_nat lo) (N.to_nat hi + 1 - N.to_nat lo)).

(** The characters of [\s]: the WhiteSpace and LineTerminator productions. *)
Definition WhiteSpace : list code_unit :=
  [9; 11; 12; 32; 160; 65279; 5760] ++ range 8192 8202 ++ [8239; 8287; 12288].
Definition LineTerminator : list code_unit := [10; 13; 8232; 8233].

Definition class_atom_set (i : ClassAtom) : list code_unit :=
  match i with
  | ClassChar c => [c]
  | ClassRange lo hi => range lo hi
  | ClassSpace => WhiteSpace ++ LineTerminator
  end.

Definition atom_set (a : Atom) : list code_unit * bool :=
  match a with
  | PatternCharacter c => ([c], false)
  | IdentityEscape c => ([c], false)
  | CharacterClass invert items => (flat_map class_atom_set items, invert)
  end.

(** toUpperCase on a code unit below 128. *)
Definition ascii_upper (ch : code_unit) : code_unit :=
  if (97 <=? ch) && (ch <=? 122) then ch - 32 else ch.

(** ** The shape of an email address, in the words of the specification *)

Definition is_white_space (c : code_unit) : bool :=
  existsb (fun a => a =? c) (WhiteSpace ++ LineTerminator).

Definition is_ascii_letter (c : code_unit) : bool :=
  ((65 <=? c) && (c <=? 90)) || ((97 <=? c) && (c <=? 122)).

(** A character of [local] or of [domain]: no white space, no ['@']. *)
Definition name_char (c : code_unit) : bool :=
  negb (is_white_space c) && negb (c =? 64).

(** [local@domain.tld]: [local] and [domain] are one or more name
    characters, [tld] is two or more letters, and nothing surrounds them. *)
Definition email_shape (s : js_string) : Prop :=
  exists local domain tld,
    s = local ++ 64 :: domain ++ 46 :: tld
    /\ (1 <= length local)%nat /\ forallb name_char local = true
    /\ (1 <= length domain)%nat /\ forallb name_char domain = true
    /\ (2 <= length tld)%nat /\ forallb is_ascii_letter tld = true.

(** [/^[^\s@]+@[^\s@]+\.[A-Za-z]{2,}$/], the pattern as the specification
    writes it: both cases spelled out and no flag. *)
Definition specRegex : RegExp :=
  {| source :=
       [ AssertStart;
         AtLeast 1 (CharacterClass true [ClassSpace; ClassChar 64]);
         Single (PatternCharacter 64);
         AtLeast 1 (CharacterClass true [ClassSpace; ClassChar 64]);
         Single (IdentityEscape 46);
         AtLeast 2 (CharacterClass false [ClassRange 65 90; ClassRange 97 122]);
         AssertEnd ];
     ignoreCase := false |}.

Section Script.

(** The upper-case mapping of the code units from 128 on, as
    String.prototype.toUpperCase gives it for a one-unit string. The table
    belongs to the engine, not to the script, and stays a parameter. *)
Variable unicode_upper : code_unit -> js_string.

Definition toUpperCase (ch : code_unit) : js_string :=
  if ch <? 128 then [ascii_upper ch] else unicode_upper ch.

(** Canonicalize, without the u flag. *)
Definition Canonicalize (ic : bool) (ch : code_unit) : code_unit :=
  if negb ic then ch
  else match toUpperCase ch with
       | [cu] => if (128 <=? ch) && (cu <? 128) then ch else cu
       | _ => ch
       end.

(** No white space character takes part in a case pair: it is not the upper
    case of another code unit and has none of its own. This is a fact of the
    Unicode tables. *)
Definition white_space_caseless : Prop :=
  forall ch cu, 128 <= ch -> unicode_upper ch = [cu] ->
    is_white_space cu = true \/ is_white_space ch = true -> cu = ch.

(** CharacterSetMatcher: does [ch] pass the set [A], inverted or not. *)
Definition CharacterSetMatcher (ic : bool) (A : list code_unit) (invert : bool)
    (ch : code_unit) : bool :=
  let cc := Canonicalize ic ch in
  let found := existsb (fun a => Canonicalize ic a =? cc) A in
  xorb invert found.

Definition atom_matches (ic : bool) (a : Atom) (ch : code_unit) : bool :=
  let '(A, invert) := atom_set a in CharacterSetMatcher ic A invert ch.

(** A match state is the index reached and the input left from there on;
    a continuation decides whether the rest of the pattern matches. *)
Definition Continuation := nat -> js_string -> bool.

(** RepeatMatcher for a one-character atom, greedy, no upper bound: take the
    atom once more if it matches, and fall back to the continuation when
    that fails and [min] is used up. *)
Fixpoint RepeatMatcher (m : code_unit -> bool) (min : nat) (index : nat)
    (rest : js_string) (c : Continuation) {struct rest} : bool :=
  match rest with
  | ch :: rest' =>
      if m ch && RepeatMatcher m (Nat.pred min) (S index) rest' c then true
      else match min with O => c index rest | S _ => false end
  | [] => match min with O => c index rest | S _ => false end
  end.

Definition term_matcher (ic : bool) (t : Term) (index : nat)
    (rest : js_string) (c : Continuation) : bool :=
  match t with
  | AssertStart => if Nat.eqb index 0 then c index rest else false
  | AssertEnd => match rest with [] => c index rest | _ :: _ => false end
  | Single a =>
      match rest with
      | ch :: rest' => if atom_matches ic a ch then c (S index) rest' else false
      | [] => false
      end
  | AtLeast min a => RepeatMatcher (atom_matches ic a) min index rest c
  end.

Fixpoint alternative_matcher (ic : bool) (ts : list Term) (index : nat)
    (rest : js_string) (c : Continuation) {struct ts} : bool :=
  match ts with
  | [] => c index rest
  | t :: ts' =>
      term_matcher ic t index rest
        (fun i r => alternative_matcher ic ts' i r c)
  end.

(** RegExpBuiltinExec without the g and y flags: lastIndex is 0 and the
    matcher is tried at every index up to the length of the input. *)
Fixpoint exec_from (R : RegExp) (index : nat) (rest : js_string) : bool :=
  if alternative_matcher (ignoreCase R) (source R) index rest (fun _ _ => true)
  then true
  else match rest with
       | [] => false
       | _ :: rest' => exec_from R (S index) rest'
       end.

(** RegExp.prototype.test *)
Definition test (R : RegExp) (s : js_string) : bool := exec_from R 0%nat s.

(** [/^[^\s@]+@[^\s@]+\.[a-z]{2,}$/i] *)
Definition emailRegex : RegExp :=
  {| source :=
       [ AssertStart;
         AtLeast 1 (CharacterClass true [ClassSpace; ClassChar 64]);
         Single (PatternCharacter 64);
         AtLeast 1 (CharacterClass true [ClassSpace; ClassChar 64]);
         Single (IdentityEscape 46);
         AtLeast 2 (CharacterClass false [ClassRange 97 122]);
         AssertEnd ];
     ignoreCase := true |}.

Definition isValidEmail (email : js_string) : bool := test emailRegex email.

(** ** The functions and listeners of the script *)

Definition showError (message : js_string) (d : Document) : Document :=
  let d := with_errorMessage (set_textContent message) d in
  let d := with_errorMessage (with_style (set_display (lit "block"))) d in
  let d := with_emailInput (with_style (set_borderColor (lit "#FF6155"))) d in
  with_emailInput (with_style (set_backgroundColor (lit "#FFE8E6"))) d.

Definition clearError (d : Document) : Document :=
  let d := with_errorMessage (set_textContent (lit "")) d in
  let d := with_errorMessage (with_style (set_display (lit "none"))) d in
  let d :=
    with_emailInput (with_style (set_borderColor (lit "hsl(0, 0%, 58%)"))) d in
  with_emailInput (with_style (set_backgroundColor (lit "transparent"))) d.

Definition showSuccessMessage (email : js_string) (d : Document) : Document :=
  let d := with_main_area (with_style (set_display (lit "none"))) d in
  let d := with_header_img (with_style (set_display (lit "none"))) d in
  let d := with_successMessage (classList_remove (lit "hidden")) d in
  let d := with_emailDisplay (set_textContent email) d in
  with_emailInput (set_value (lit "")) d.

(** The ['input'] listener of [emailInput]. *)
Definition emailInput_oninput (d : Document) : Document := clearError d.

(** The ['click'] listener of [submitBtn]; it gives back the event with its
    flag and the document. *)
Definition submitBtn_onclick (event : Event) (d : Document) : Event * Document :=
  let event := preventDefault event in
  let email := value (emailInput d) in
  if email === lit "" then
    (event, showError (lit "Email is required") d)
  else if negb (isValidEmail email) then
    (event, showError (lit "Please enter a valid email address") d)
  else
    (event, showSuccessMessage email d).

(** The ['click'] listener of [dismissBtn]. *)
Definition dismissBtn_onclick (d : Document) : Document :=
  let d := with_successMessage (classList_add (lit "hidden")) d in
  let d := with_main_area (with_style (set_display (lit "block"))) d in
  let d := with_header_img (with_style (set_display (lit "block"))) d in
  clearError d.

(** [submitBtn.click()]: a new click event goes to the button's listener. *)
Definition submitBtn_click (d : Document) : Event * Document :=
  submitBtn_onclick {| defaultPrevented := false |} d.

(** The ['keypress'] listener of [emailInput]. *)
Definition emailInput_onkeypress (event : KeyboardEvent) (d : Document)
  : KeyboardEvent * Document :=
  if key event === lit "Enter" then
    (event, snd (submitBtn_click d))
  else
    (event, d).

(** ** Triggers

    What the user can do: type (the page stores the new value in the input
    and fires ['input']), activate the submit control, activate the dismiss
    control, press a key in the input. *)
Inductive Trigger :=
| InputChange (v : js_string)
| SubmitClick (event : Event)
| DismissClick
| KeyPress (event : KeyboardEvent).

Definition step (t : Trigger) (d : Document) : Document :=
  match t with
  | InputChange v => emailInput_oninput (with_emailInput (set_value v) d)
  | SubmitClick event => snd (submitBtn_onclick event d)
  | DismissClick => dismissBtn_onclick d
  | KeyPress event => snd (emailInput_onkeypress event d)
  end.

Fixpoint run (ts : list Trigger) (d : Document) : Document :=
  match ts with
  | [] => d
  | t :: ts' => run ts' (step t d)
  end.

(** The triggers that run the submit listener. *)
Definition submits (t : Trigger) : bool :=
  match t with
  | SubmitClick _ => true
  | KeyPress event => key event === lit "Enter"
  | _ => false
  end.


(** A submit that gets through: the trigger runs the submit listener and
    the value in the input passes the check. *)
Definition successful_submit (t : Trigger) (d : Document) : bool :=
  submits t && isValidEmail (value (emailInput d)).

(** No trigger of [ts], run from [d], is a successful submit. *)
Fixpoint no_successful_submit (ts : list Trigger) (d : Document) : bool :=
  match ts with
  | [] => true
  | t :: ts' =>
      negb (successful_submit t d) && no_successful_submit ts' (step t d)
  end.

(** While an error is on display the value in the input is one the check
    rejects: typing clears the error, and only a rejected submit shows it. *)
Definition error_only_on_rejected (d : Document) : Prop :=
  NoError d = true \/ isValidEmail (value (emailInput d)) = false.

(** The message on display fits the value in the input: no error, or
    "Email is required" over an empty input, or "Please enter a valid email
    address" over a value, not empty, that the check rejects. *)
Definition error_matches_value (d : Document) : Prop :=
  NoError d = true
  \/ (ErrorShown (lit "Email is required") d = true
      /\ value (emailInput d) = [])
  \/ (ErrorShown (lit "Please enter a valid email address") d = true
      /\ value (emailInput d) <> []
      /\ isValidEmail (value (emailInput d)) = false).

(** ** Sample documents *)

Definition no_style : Style :=
  {| display := lit ""; borderColor := lit ""; backgroundColor := lit "" |}.
Definition empty_element (classes : list js_string) : Element :=
  {| value := lit ""; textContent := lit ""; style := no_style;
     classList := classes |}.

(** Modelled from the spec: the markup is not among the sources. The page
    as it loads: no inline style, every text and the input empty, the
    success region with its ['hidden'] marker. *)
Definition page_load : Document :=
  {| emailInput := empty_element [];
     errorMessage := empty_element [];
     successMessage := empty_element [lit "hidden"];
     emailDisplay := empty_element [];
     main_area := empty_element [];
     header_img := empty_element [] |}.

(** The loaded page with [v] in the input. *)
Definition filled (v : js_string) : Document :=
  with_emailInput (set_value v) page_load.

(** The page after "user@example.com" went through. *)
Definition signed_up : Document :=
  showSuccessMessage (lit "user@example.com")
    (filled (lit "user@example.com")).

Definition a_click : Event := {| defaultPrevented := false |}.
Definition enter_key : KeyboardEvent :=
  {| key := lit "Enter"; keyDefaultPrevented := false |}.

(** An error on display over an input that already holds a well-formed
    address: the value was put there without an ['input'] event. *)
Definition stale_error : Document :=
  with_emailInput (set_value (lit "user@example.com"))
    (showError (lit "Email is required") page_load).

(** A case table without pairs above 127, to run the matcher on. *)
Definition no_case_pairs (ch : code_unit) : js_string := [ch].

(** ** Strings and character sets *)

Lemma strict_equals_refl (a : js_string) : (a === a) = true.
Proof.
  induction a as [|x a IH]; simpl; [reflexivity|].
  now rewrite N.eqb_refl, IH.
Qed.

Lemma strict_equals_eq (a b : js_string) : (a === b) = true <-> a = b.
Proof.
  split; [|intros ->; apply strict_equals_refl].
  revert b; induction a as [|x a IH]; intros [|y b]; simpl; try easy.
  intros H; apply andb_true_iff in H as [Hx Hab].
  apply N.eqb_eq in Hx; subst; f_equal; auto.
Qed.

Lemma strict_equals_neq (a b : js_string) : (a === b) = false <-> a <> b.
Proof.
  rewrite <- strict_equals_eq. destruct (a === b); split; congruence.
Qed.

Lemma in_range (lo hi a : code_unit) :
  In a (range lo hi) <-> lo <= a <= hi.
Proof.
  unfold range. rewrite in_map_iff. split.
  - intros (n & <- & Hn). apply in_seq in Hn. lia.
  - intros H. exists (N.to_nat a). split; [apply N2Nat.id|].
    apply in_seq. lia.
Qed.

Lemma existsb_agree {A} (f g : A -> bool) (l : list A) :
  (forall a, In a l -> f a = g a) -> existsb f l = existsb g l.
Proof.
  induction l as [|x l IH]; simpl; intros H; [reflexivity|].
  rewrite (H x) by auto. rewrite IH by auto. reflexivity.
Qed.

Lemma in_white_space (a : code_unit) :
  In a (WhiteSpace ++ LineTerminator) -> is_white_space a = true.
Proof.
  intros H. unfold is_white_space. apply existsb_exists.
  exists a. split; [assumption|apply N.eqb_refl].
Qed.

Lemma white_space_cases (a : code_unit) :
  is_white_space a = true -> (9 <= a <= 13) \/ a = 32 \/ 128 <= a.
Proof.
  unfold is_white_space. rewrite existsb_exists. intros (x & Hin & Hx).
  apply N.eqb_eq in Hx; subst x.
  apply in_app_or in Hin as [Hin|Hin].
  - unfold WhiteSpace in Hin. simpl in Hin.
    repeat (destruct Hin as [Hin|Hin]; [lia|]). destruct Hin.
  - simpl in Hin. repeat (destruct Hin as [Hin|Hin]; [lia|]). destruct Hin.
Qed.

(** ** Canonicalize *)

Lemma Canonicalize_off (ch : code_unit) : Canonicalize false ch = ch.
Proof. reflexivity. Qed.

Lemma Canonicalize_low (ch : code_unit) :
  ch < 128 -> Canonicalize true ch = ascii_upper ch.
Proof.
  intros H. unfold Canonicalize, toUpperCase; simpl.
  apply N.ltb_lt in H as Hb. rewrite Hb.
  assert ((128 <=? ch) = false) as -> by (apply N.leb_gt; assumption).
  reflexivity.
Qed.

(** A code unit from 128 on is its own canonical form or that of a code
    unit from 128 on in its case pair: it never folds into ASCII. *)
Lemma Canonicalize_high (ch : code_unit) :
  128 <= ch ->
  Canonicalize true ch = ch
  \/ (128 <= Canonicalize true ch
      /\ unicode_upper ch = [Canonicalize true ch]).
Proof.
  intros H. unfold Canonicalize, toUpperCase; simpl.
  assert ((ch <? 128) = false) as -> by (apply N.ltb_ge; assumption).
  assert ((128 <=? ch) = true) as -> by (apply N.leb_le; assumption).
  destruct (unicode_upper ch) as [|cu [|? ?]] eqn:E; auto.
  simpl. destruct (cu <? 128) eqn:Hcu; auto.
  right. apply N.ltb_ge in Hcu. auto.
Qed.

Lemma Canonicalize_high_ge (ch : code_unit) :
  128 <= ch -> 128 <= Canonicalize true ch.
Proof.
  intros H. destruct (Canonicalize_high ch H) as [->|[? _]]; assumption.
Qed.

Lemma ascii_upper_cases (ch : code_unit) :
  (97 <= ch <= 122 /\ ascii_upper ch = ch - 32)
  \/ (~ (97 <= ch <= 122) /\ ascii_upper ch = ch).
Proof.
  unfold ascii_upper.
  destruct (97 <=? ch) eqn:H1; destruct (ch <=? 122) eqn:H2; simpl;
    rewrite ?N.leb_le, ?N.leb_gt in *; [left|right|right|right]; lia.
Qed.

(** An ASCII character that is not a letter is matched by itself alone,
    with or without the i flag. *)
Lemma canon_eqb_ascii_caseless (ic : bool) (a ch : code_unit) :
  a < 65 \/ (90 < a < 97) \/ (122 < a < 128) ->
  (Canonicalize ic a =? Canonicalize ic ch) = (a =? ch).
Proof.
  intros Ha. destruct ic; [|reflexivity].
  rewrite (Canonicalize_low a) by lia.
  destruct (ascii_upper_cases a) as [[? _]|[_ ->]]; [lia|].
  destruct (N.lt_ge_cases ch 128) as [Hch|Hch].
  - rewrite (Canonicalize_low ch Hch).
    destruct (ascii_upper_cases ch) as [[? ->]|[_ ->]]; [|reflexivity].
    transitivity false; [apply N.eqb_neq|symmetry; apply N.eqb_neq]; lia.
  - pose proof (Canonicalize_high_ge ch Hch).
    transitivity false; [apply N.eqb_neq|symmetry; apply N.eqb_neq]; lia.
Qed.

(** With the i flag a white space character still matches itself alone. *)
Lemma canon_eqb_white_space (ic : bool) (a ch : code_unit) :
  white_space_caseless -> is_white_space a = true ->
  (Canonicalize ic a =? Canonicalize ic ch) = (a =? ch).
Proof.
  intros Hws Ha. destruct (white_space_cases a Ha) as [H|[H|H]];
    try (apply canon_eqb_ascii_caseless; lia).
  destruct ic; [|reflexivity].
  assert (Canonicalize true a = a) as ->.
  { destruct (Canonicalize_high a H) as [E|[_ E]]; [exact E|].
    apply (Hws a _ H E). auto. }
  destruct (N.lt_ge_cases ch 128) as [Hch|Hch].
  - rewrite (Canonicalize_low ch Hch).
    destruct (ascii_upper_cases ch) as [[? ->]|[? ->]];
      (transitivity false; [apply N.eqb_neq|symmetry; apply N.eqb_neq]; lia).
  - destruct (Canonicalize_high ch Hch) as [->|[_ E]]; [reflexivity|].
    destruct (N.eqb_spec a ch) as [->|Hne].
    + apply N.eqb_eq. symmetry. apply (Hws ch _ Hch E). auto.
    + apply N.eqb_neq. intros Heq. apply Hne.
      rewrite Heq. apply (Hws ch _ Hch E). left. now rewrite <- Heq.
Qed.

(** ** The three character tests of the pattern *)

Lemma at_sign_matches (ic : bool) (ch : code_unit) :
  atom_matches ic (PatternCharacter 64) ch = (ch =? 64).
Proof.
  unfold atom_matches, CharacterSetMatcher; simpl.
  rewrite canon_eqb_ascii_caseless by lia.
  rewrite orb_false_r. apply N.eqb_sym.
Qed.

Lemma dot_matches (ic : bool) (ch : code_unit) :
  atom_matches ic (IdentityEscape 46) ch = (ch =? 46).
Proof.
  unfold atom_matches, CharacterSetMatcher; simpl.
  rewrite canon_eqb_ascii_caseless by lia.
  rewrite orb_false_r. apply N.eqb_sym.
Qed.

Lemma name_class_matches (ic : bool) (ch : code_unit) :
  (ic = true -> white_space_caseless) ->
  atom_matches ic (CharacterClass true [ClassSpace; ClassChar 64]) ch
  = name_char ch.
Proof.
  intros Hws. unfold atom_matches, CharacterSetMatcher, atom_set.
  cbn [flat_map class_atom_set]. rewrite app_nil_r.
  rewrite (existsb_agree _ (fun a => a =? ch)).
  - rewrite existsb_app. cbn [existsb]. rewrite orb_false_r.
    unfold name_char, is_white_space. rewrite (N.eqb_sym 64 ch).
    cbn [xorb]. apply negb_orb.
  - intros a Ha. apply in_app_or in Ha as [Ha|Ha].
    + destruct ic; [|reflexivity].
      apply canon_eqb_white_space; auto using in_white_space.
    + destruct Ha as [<-|[]]. apply canon_eqb_ascii_caseless. lia.
Qed.

Lemma letters_class_matches_i (ch : code_unit) :
  atom_matches true (CharacterClass false [ClassRange 97 122]) ch
  = is_ascii_letter ch.
Proof.
  unfold atom_matches, CharacterSetMatcher, atom_set.
  cbn [flat_map class_atom_set xorb]. rewrite app_nil_r.
  apply eq_true_iff_eq. rewrite existsb_exists. unfold is_ascii_letter.
  rewrite orb_true_iff, !andb_true_iff, !N.leb_le. split.
  - intros (a & Ha & E). apply in_range in Ha. apply N.eqb_eq in E.
    rewrite (Canonicalize_low a) in E by lia.
    destruct (ascii_upper_cases a) as [[_ Ea]|[? _]]; [|lia].
    rewrite Ea in E.
    destruct (N.lt_ge_cases ch 128) as [Hch|Hch].
    + rewrite (Canonicalize_low ch Hch) in E.
      destruct (ascii_upper_cases ch) as [[? Ec]|[? Ec]];
        rewrite Ec in E; lia.
    + pose proof (Canonicalize_high_ge ch Hch). lia.
  - intros H.
    exists (if ch <? 97 then ch + 32 else ch).
    destruct (ch <? 97) eqn:Hlt;
      rewrite ?N.ltb_lt, ?N.ltb_ge in Hlt; rewrite in_range, N.eqb_eq.
    + split; [lia|]. rewrite !Canonicalize_low by lia.
      destruct (ascii_upper_cases (ch + 32)) as [[_ ->]|[? _]]; [|lia].
      destruct (ascii_upper_cases ch) as [[? _]|[_ ->]]; lia.
    + split; [lia|reflexivity].
Qed.

Lemma letters_class_matches_spelled (ch : code_unit) :
  atom_matches false
    (CharacterClass false [ClassRange 65 90; ClassRange 97 122]) ch
  = is_ascii_letter ch.
Proof.
  unfold atom_matches, CharacterSetMatcher, atom_set.
  cbn [flat_map class_atom_set xorb]. rewrite app_nil_r.
  apply eq_true_iff_eq. rewrite existsb_exists. unfold is_ascii_letter.
  rewrite orb_true_iff, !andb_true_iff, !N.leb_le. split.
  - intros (a & Ha & E). apply N.eqb_eq in E. cbn in E. subst a.
    apply in_app_or in Ha. rewrite !in_range in Ha. exact Ha.
  - intros H. exists ch. split; [|apply N.eqb_refl].
    apply in_or_app. rewrite !in_range. exact H.
Qed.

(** ** The matcher *)

(** [RepeatMatcher] succeeds exactly when some prefix of at least [min]
    characters, all passing [m], leaves a rest the continuation accepts. *)
Lemma RepeatMatcher_spec (m : code_unit -> bool) (c : Continuation)
    (rest : js_string) :
  forall (min index : nat),
    RepeatMatcher m min index rest c = true <->
    exists pre suf,
      rest = pre ++ suf /\ (min <= length pre)%nat
      /\ forallb m pre = true /\ c (index + length pre)%nat suf = true.
Proof.
  induction rest as [|ch rest IH]; intros min index.
  - simpl. split.
    + destruct min; [|discriminate]. intros H.
      exists [], []. simpl. rewrite Nat.add_0_r. auto.
    + intros (pre & suf & E & Hmin & _ & Hc).
      symmetry in E. apply app_eq_nil in E as [-> ->].
      simpl in *. rewrite Nat.add_0_r in Hc.
      destruct min; [assumption|lia].
  - cbn [RepeatMatcher]. split.
    + destruct (m ch && RepeatMatcher m (Nat.pred min) (S index) rest c)
        eqn:Hstep.
      * intros _. apply andb_true_iff in Hstep as [Hm Hr].
        apply IH in Hr as (pre & suf & -> & Hmin & Hall & Hc).
        exists (ch :: pre), suf. simpl. rewrite Hm, Hall.
        rewrite Nat.add_succ_r. repeat split; auto. lia.
      * destruct min; [|discriminate]. intros Hc.
        exists [], (ch :: rest). simpl. rewrite Nat.add_0_r. auto.
    + intros (pre & suf & E & Hmin & Hall & Hc).
      destruct pre as [|x pre].
      * simpl in *. subst suf. rewrite Nat.add_0_r in Hc.
        destruct min; [|lia].
        destruct (m ch && _); [reflexivity|assumption].
      * simpl in E. injection E as -> ->.
        simpl in Hall. apply andb_true_iff in Hall as [Hm Hall].
        rewrite Hm. simpl.
        assert (RepeatMatcher m (Nat.pred min) (S index) (pre ++ suf) c = true)
          as ->; [|reflexivity].
        apply IH. exists pre, suf. repeat split; auto.
        -- simpl in Hmin. lia.
        -- simpl in Hc. now rewrite Nat.add_succ_r in Hc.
Qed.

(** A pattern that starts with [^] matches at index 0 or nowhere. *)
Lemma exec_from_anchored (R : RegExp) (ts : list Term) (rest : js_string) :
  source R = AssertStart :: ts ->
  forall index, exec_from R (S index) rest = false.
Proof.
  intros E. induction rest as [|ch rest IH]; intros index; simpl;
    rewrite E; simpl; auto.
Qed.

Lemma test_anchored (R : RegExp) (ts : list Term) (s : js_string) :
  source R = AssertStart :: ts ->
  test R s
  = alternative_matcher (ignoreCase R) ts 0%nat s (fun _ _ => true).
Proof.
  intros E. unfold test. destruct s as [|ch s]; simpl; rewrite E; simpl.
  - now destruct (alternative_matcher _ _ _ _ _).
  - rewrite (exec_from_anchored R ts s E).
    now destruct (alternative_matcher _ _ _ _ _).
Qed.

(** The matches of [^ A1{1,} x A2{1,} y A3{2,} $]. *)
Lemma shape_pattern_matches (ic : bool) (A1 X A2 Y A3 : Atom) (s : js_string) :
  test {| source := [AssertStart; AtLeast 1 A1; Single X; AtLeast 1 A2;
                     Single Y; AtLeast 2 A3; AssertEnd];
          ignoreCase := ic |} s = true
  <->
  exists local x domain y tld,
    s = local ++ x :: domain ++ y :: tld
    /\ (1 <= length local)%nat /\ forallb (atom_matches ic A1) local = true
    /\ atom_matches ic X x = true
    /\ (1 <= length domain)%nat /\ forallb (atom_matches ic A2) domain = true
    /\ atom_matches ic Y y = true
    /\ (2 <= length tld)%nat /\ forallb (atom_matches ic A3) tld = true.
Proof.
  erewrite test_anchored by (cbn [source]; reflexivity). cbn [ignoreCase].
  cbn [alternative_matcher term_matcher]. split.
  - intros H.
    apply RepeatMatcher_spec in H as (local & r1 & -> & Hl & Hal & H).
    destruct r1 as [|x r1]; [discriminate|].
    destruct (atom_matches ic X x) eqn:Hx; [|discriminate].
    apply RepeatMatcher_spec in H as (domain & r2 & -> & Hd & Had & H).
    destruct r2 as [|y r2]; [discriminate|].
    destruct (atom_matches ic Y y) eqn:Hy; [|discriminate].
    apply RepeatMatcher_spec in H as (tld & r3 & -> & Ht & Hat & H).
    destruct r3; [|discriminate].
    exists local, x, domain, y, tld. rewrite app_nil_r. repeat split; auto.
  - intros (local & x & domain & y & tld & -> & Hl & Hal & Hx & Hd & Had
            & Hy & Ht & Hat).
    apply RepeatMatcher_spec. exists local, (x :: domain ++ y :: tld).
    repeat split; auto. rewrite Hx.
    apply RepeatMatcher_spec. exists domain, (y :: tld).
    repeat split; auto. rewrite Hy.
    apply RepeatMatcher_spec. exists tld, []. rewrite app_nil_r.
    repeat split; auto.
Qed.

Lemma forallb_agree {A} (f g : A -> bool) (l : list A) :
  (forall a, f a = g a) -> forallb f l = forallb g l.
Proof.
  intros H. induction l as [|x l IH]; simpl; [reflexivity|].
  now rewrite H, IH.
Qed.

(** Both patterns accept exactly the strings of the shape
    [local@domain.tld]. *)
Lemma shape_of_pattern (ic : bool) (A3 : Atom) (s : js_string) :
  (ic = true -> white_space_caseless) ->
  (forall ch, atom_matches ic A3 ch = is_ascii_letter ch) ->
  test {| source :=
            [ AssertStart;
              AtLeast 1 (CharacterClass true [ClassSpace; ClassChar 64]);
              Single (PatternCharacter 64);
              AtLeast 1 (CharacterClass true [ClassSpace; ClassChar 64]);
              Single (IdentityEscape 46);
              AtLeast 2 A3;
              AssertEnd ];
          ignoreCase := ic |} s = true
  <-> email_shape s.
Proof.
  intros Hws HA3. rewrite shape_pattern_matches. unfold email_shape.
  assert (Hname : forall l,
    forallb (atom_matches ic (CharacterClass true [ClassSpace; ClassChar 64])) l
    = forallb name_char l).
  { intros l. apply forallb_agree. intros ch. now apply name_class_matches. }
  assert (Hletters : forall l,
    forallb (atom_matches ic A3) l = forallb is_ascii_letter l).
  { intros l. now apply forallb_agree. }
  split.
  - intros (local & x & domain & y & tld & -> & Hl & Hal & Hx & Hd & Had
            & Hy & Ht & Hat).
    rewrite at_sign_matches in Hx. rewrite dot_matches in Hy.
    apply N.eqb_eq in Hx, Hy. subst x y.
    rewrite Hname in Hal, Had. rewrite Hletters in Hat.
    exists local, domain, tld. repeat split; auto.
  - intros (local & domain & tld & -> & Hl & Hal & Hd & Had & Ht & Hat).
    exists local, 64, domain, 46, tld.
    rewrite at_sign_matches, dot_matches, !Hname, Hletters.
    repeat split; auto.
Qed.

Lemma email_shape_one_at (s : js_string) :
  email_shape s -> count_occ N.eq_dec s 64 = 1%nat.
Proof.
  assert (Hname : forall l, forallb name_char l = true ->
                            count_occ N.eq_dec l 64 = 0%nat).
  { intros l H. apply count_occ_not_In. intros Hin.
    rewrite forallb_forall in H. specialize (H _ Hin).
    unfold name_char in H. rewrite N.eqb_refl, andb_false_r in H.
    discriminate. }
  assert (Hletters : forall l, forallb is_ascii_letter l = true ->
                               count_occ N.eq_dec l 64 = 0%nat).
  { intros l H. apply count_occ_not_In. intros Hin.
    rewrite forallb_forall in H. specialize (H _ Hin). discriminate. }
  intros (local & domain & tld & -> & _ & Hl & _ & Hd & _ & Ht).
  rewrite count_occ_app, (Hname _ Hl). cbn [count_occ].
  destruct (N.eq_dec 64 64) as [_|Hne]; [|congruence].
  rewrite count_occ_app, (Hname _ Hd). cbn [count_occ].
  destruct (N.eq_dec 46 64) as [Heq|_]; [discriminate|].
  now rewrite (Hletters _ Ht).
Qed.

Lemma isValidEmail_shape (s : js_string) :
  white_space_caseless -> isValidEmail s = true <-> email_shape s.
Proof.
  intros Hws. apply shape_of_pattern; [auto|apply letters_class_matches_i].
Qed.

Lemma specRegex_shape (s : js_string) :
  test specRegex s = true <-> email_shape s.
Proof.
  apply shape_of_pattern; [discriminate|apply letters_class_matches_spelled].
Qed.

Lemma isValidEmail_specRegex (s : js_string) :
  white_space_caseless -> isValidEmail s = test specRegex s.
Proof.
  intros Hws. apply eq_true_iff_eq.
  now rewrite isValidEmail_shape, specRegex_shape.
Qed.

(** C1. [isValidEmail] is a total function from strings to booleans; it
    returns true exactly for the strings [local@domain.tld], with [local]
    and [domain] one or more characters that are neither white space nor
    ['@'] and [tld] two or more letters of either case, nothing before or
    after; such a string holds exactly one ['@']; every string that matches
    the pattern spelled with [A-Za-z] is accepted; and "abc", "a@b",
    "a@b.c" and "a@@b.com" are rejected. The statement is under the fact
    that white space takes no part in case pairs. *)
Theorem isValidEmail_spec :
  white_space_caseless ->
  (forall s, isValidEmail s = true <-> email_shape s)
  /\ (forall s, isValidEmail s = true -> count_occ N.eq_dec s 64 = 1%nat)
  /\ (forall s, test specRegex s = true -> isValidEmail s = true)
  /\ isValidEmail (lit "abc") = false
  /\ isValidEmail (lit "a@b") = false
  /\ isValidEmail (lit "a@b.c") = false
  /\ isValidEmail (lit "a@@b.com") = false.
Proof.
  intros Hws. split; [|split; [|split]].
  - intros s. now apply isValidEmail_shape.
  - intros s H. apply email_shape_one_at. now apply isValidEmail_shape.
  - intros s H. now rewrite isValidEmail_specRegex.
  - rewrite !isValidEmail_specRegex by assumption.
    repeat split; vm_compute; reflexivity.
Qed.

(** ** The listeners *)

Lemma isValidEmail_empty : isValidEmail [] = false.
Proof. reflexivity. Qed.

Lemma is_empty_string (s : js_string) : (s === lit "") = true <-> s = [].
Proof. apply strict_equals_eq. Qed.

Lemma valid_is_not_empty (s : js_string) :
  isValidEmail s = true -> (s === lit "") = false.
Proof.
  intros H. apply strict_equals_neq. intros ->.
  change (lit "") with (@nil code_unit) in H.
  rewrite isValidEmail_empty in H. discriminate.
Qed.


Lemma submitBtn_onclick_document (event : Event) (d : Document) :
  snd (submitBtn_onclick event d)
  = let email := value (emailInput d) in
    if email === lit "" then showError (lit "Email is required") d
    else if isValidEmail email then showSuccessMessage email d
    else showError (lit "Please enter a valid email address") d.
Proof.
  unfold submitBtn_onclick. cbv zeta.
  destruct (_ === _); [reflexivity|]. now destruct (isValidEmail _).
Qed.

Lemma submit_rejected (event : Event) (d : Document) :
  value (emailInput d) = [] \/ isValidEmail (value (emailInput d)) = false ->
  snd (submitBtn_onclick event d)
  = showError (if value (emailInput d) === lit ""
               then lit "Email is required"
               else lit "Please enter a valid email address") d.
Proof.
  intros H. rewrite submitBtn_onclick_document. cbv zeta.
  destruct (value (emailInput d) === lit "") eqn:E; [reflexivity|].
  destruct H as [H|H].
  - apply is_empty_string in H. congruence.
  - now rewrite H.
Qed.

Lemma submit_accepted (event : Event) (d : Document) :
  isValidEmail (value (emailInput d)) = true ->
  snd (submitBtn_onclick event d)
  = showSuccessMessage (value (emailInput d)) d.
Proof.
  intros H. rewrite submitBtn_onclick_document. cbv zeta.
  now rewrite (valid_is_not_empty _ H), H.
Qed.

Lemma ErrorShown_showError (message : js_string) (d : Document) :
  ErrorShown message (showError message d) = true.
Proof.
  unfold ErrorShown, error_region_shown, error_decoration, showError.
  cbn. now rewrite !strict_equals_refl.
Qed.

Lemma ErrorCleared_clearError (d : Document) :
  ErrorCleared (clearError d) = true.
Proof. reflexivity. Qed.

Lemma NoError_clearError (d : Document) : NoError (clearError d) = true.
Proof. reflexivity. Qed.

Lemma ErrorCleared_NoError (d : Document) :
  ErrorCleared d = true -> NoError d = true.
Proof.
  unfold ErrorCleared, NoError, neutral_decoration, error_region_shown.
  intros H. rewrite !andb_true_iff, !strict_equals_eq in H.
  destruct H as [[Ht Hd] [Hb Hg]]. rewrite Ht, Hd, Hb, Hg. reflexivity.
Qed.

Lemma contains_removed (token : js_string) (l : list js_string) :
  contains token (filter (fun t => negb (t === token)) l) = false.
Proof.
  unfold contains. induction l as [|x l IH]; simpl; [reflexivity|].
  destruct (x === token) eqn:E; simpl; [assumption|].
  now rewrite E, IH.
Qed.

Lemma contains_added (token : js_string) (l : list js_string) :
  contains token (if contains token l then l else l ++ [token]) = true.
Proof.
  destruct (contains token l) eqn:E; [assumption|].
  unfold contains. rewrite existsb_app. simpl.
  rewrite strict_equals_refl. apply orb_true_r.
Qed.

Lemma success_visible_showSuccessMessage (email : js_string) (d : Document) :
  success_visible (showSuccessMessage email d) = true.
Proof.
  change (success_visible (showSuccessMessage email d))
    with (negb (contains (lit "hidden")
                  (filter (fun t => negb (t === lit "hidden"))
                     (classList (successMessage d))))).
  now rewrite contains_removed.
Qed.

Lemma success_visible_dismiss (d : Document) :
  success_visible (dismissBtn_onclick d) = false.
Proof.
  change (success_visible (dismissBtn_onclick d))
    with (negb (contains (lit "hidden")
                  (if contains (lit "hidden") (classList (successMessage d))
                   then classList (successMessage d)
                   else classList (successMessage d) ++ [lit "hidden"]))).
  now rewrite contains_added.
Qed.

(** C2. A submit with the empty string shows "Email is required", a submit
    with another value that fails the shape check shows "Please enter a
    valid email address"; either way the input gets the error decoration
    and the view does not change: the form region, the header and the
    success region are as they were, so a visible form stays visible and a
    hidden success region stays hidden. *)
Theorem submit_invalid_shows_error (event : Event) (d : Document) :
  value (emailInput d) = [] \/ isValidEmail (value (emailInput d)) = false ->
  let email := value (emailInput d) in
  let d' := snd (submitBtn_onclick event d) in
  ErrorShown (if email === lit "" then lit "Email is required"
              else lit "Please enter a valid email address") d' = true
  /\ textContent (errorMessage d')
     = (if email === lit "" then lit "Email is required"
        else lit "Please enter a valid email address")
  /\ display (style (errorMessage d')) = lit "block"
  /\ borderColor (style (emailInput d')) = lit "#FF6155"
  /\ backgroundColor (style (emailInput d')) = lit "#FFE8E6"
  /\ main_area d' = main_area d
  /\ header_img d' = header_img d
  /\ successMessage d' = successMessage d
  /\ form_visible d' = form_visible d
  /\ success_visible d' = success_visible d
  /\ view_state d' = view_state d.
Proof.
  intros H email d'. subst d'. rewrite (submit_rejected event d H).
  fold email. split; [apply ErrorShown_showError|].
  repeat split.
Qed.

(** C3. A submit with a value that passes the shape check hides the form
    region and the header, reveals the success region, writes the value
    into the display region and empties the input. *)
Theorem submit_valid_shows_success (event : Event) (d : Document) :
  isValidEmail (value (emailInput d)) = true ->
  let email := value (emailInput d) in
  let d' := snd (submitBtn_onclick event d) in
  form_visible d' = false
  /\ header_visible d' = false
  /\ success_visible d' = true
  /\ view_state d' = Some SuccessVisible
  /\ display (style (main_area d')) = lit "none"
  /\ display (style (header_img d')) = lit "none"
  /\ contains (lit "hidden") (classList (successMessage d')) = false
  /\ textContent (emailDisplay d') = email
  /\ value (emailInput d') = lit "".
Proof.
  intros H email d'. subst d' email. rewrite (submit_accepted event d H).
  pose proof (success_visible_showSuccessMessage (value (emailInput d)) d)
    as Hs.
  unfold view_state. rewrite Hs.
  unfold success_visible in Hs. apply negb_true_iff in Hs.
  repeat split; assumption.
Qed.

(** What a trigger does to the two regions: nothing, or it shows the
    success region alone, or it shows the form region alone. *)
Lemma step_view (t : Trigger) (d : Document) :
  (form_visible (step t d) = form_visible d
   /\ success_visible (step t d) = success_visible d)
  \/ (form_visible (step t d) = false /\ success_visible (step t d) = true)
  \/ (form_visible (step t d) = true /\ success_visible (step t d) = false).
Proof.
  assert (Hsubmit : forall event,
    (form_visible (snd (submitBtn_onclick event d)) = form_visible d
     /\ success_visible (snd (submitBtn_onclick event d)) = success_visible d)
    \/ (form_visible (snd (submitBtn_onclick event d)) = false
        /\ success_visible (snd (submitBtn_onclick event d)) = true)
    \/ (form_visible (snd (submitBtn_onclick event d)) = true
        /\ success_visible (snd (submitBtn_onclick event d)) = false)).
  { intros event. rewrite submitBtn_onclick_document. cbv zeta.
    destruct (_ === _); [left; split; reflexivity|].
    destruct (isValidEmail _); [|left; split; reflexivity].
    right; left. split; [reflexivity|].
    apply success_visible_showSuccessMessage. }
  destruct t as [v|event| |event]; cbn [step].
  - left; split; reflexivity.
  - apply Hsubmit.
  - right; right. split; [reflexivity|apply success_visible_dismiss].
  - unfold emailInput_onkeypress, submitBtn_click.
    destruct (key event === lit "Enter"); cbn [snd]; [apply Hsubmit|].
    left; split; reflexivity.
Qed.

Lemma run_view (ts : list Trigger) :
  forall d, form_visible d = negb (success_visible d) ->
            form_visible (run ts d) = negb (success_visible (run ts d)).
Proof.
  induction ts as [|t ts IH]; intros d H; cbn [run]; [assumption|].
  apply IH.
  destruct (step_view t d) as [[-> ->]|[[-> ->]|[-> ->]]];
    [assumption|reflexivity|reflexivity].
Qed.

(** C4. From a document with the form region visible and the success
    region hidden, every sequence of triggers leads to a document where
    exactly one of the two regions is visible. *)
Theorem exactly_one_region_visible (d0 : Document) (ts : list Trigger) :
  form_visible d0 = true -> success_visible d0 = false ->
  let d := run ts d0 in
  xorb (form_visible d) (success_visible d) = true
  /\ (form_visible d && success_visible d) = false
  /\ (form_visible d || success_visible d) = true
  /\ (view_state d = Some FormVisible \/ view_state d = Some SuccessVisible).
Proof.
  intros Hf Hs d.
  assert (H : form_visible d = negb (success_visible d)).
  { apply run_view. now rewrite Hf, Hs. }
  unfold view_state. rewrite H.
  destruct (success_visible d); cbn; auto.
Qed.

(** C5. Whatever the error state before and whatever the new value, an
    input change leaves the error text empty and hidden and the input with
    the neutral border and background; on a document already in that state
    it changes nothing of the error region or of the input's style. *)
Theorem input_change_clears_error (v : js_string) (d : Document) :
  let d' := step (InputChange v) d in
  ErrorCleared d' = true
  /\ NoError d' = true
  /\ textContent (errorMessage d') = lit ""
  /\ display (style (errorMessage d')) = lit "none"
  /\ borderColor (style (emailInput d')) = lit "hsl(0, 0%, 58%)"
  /\ backgroundColor (style (emailInput d')) = lit "transparent"
  /\ value (emailInput d') = v
  /\ (ErrorCleared d = true ->
      errorMessage d' = errorMessage d
      /\ style (emailInput d') = style (emailInput d)).
Proof.
  cbv zeta. repeat split.
  - unfold ErrorCleared, neutral_decoration in H.
    rewrite !andb_true_iff, !strict_equals_eq in H.
    destruct H as [[Ht Hd] _].
    destruct d as [ei [ev et [ed eb eg] ec] sm edp ma hi].
    cbn in *. now subst.
  - unfold ErrorCleared, neutral_decoration in H.
    rewrite !andb_true_iff, !strict_equals_eq in H.
    destruct H as [_ [Hb Hg]].
    destruct d as [[iv it [id ib ig] ic] em sm edp ma hi].
    cbn in *. now subst.
Qed.


(** Any other key does nothing. *)
Lemma emailInput_onkeypress_other (event : KeyboardEvent) (d : Document) :
  key event <> lit "Enter" -> snd (emailInput_onkeypress event d) = d.
Proof.
  intros H. apply strict_equals_neq in H.
  unfold emailInput_onkeypress. now rewrite H.
Qed.


(** C7. From a document with the success region visible, dismiss hides the
    success region, shows the form region and the header again, and leaves
    the error text empty and hidden and the input neutral. *)
Theorem dismiss_returns_to_form (d : Document) :
  success_visible d = true ->
  let d' := dismissBtn_onclick d in
  success_visible d' = false
  /\ form_visible d' = true
  /\ header_visible d' = true
  /\ view_state d' = Some FormVisible
  /\ display (style (main_area d')) = lit "block"
  /\ display (style (header_img d')) = lit "block"
  /\ ErrorCleared d' = true
  /\ NoError d' = true.
Proof.
  intros _ d'. subst d'.
  pose proof (success_visible_dismiss d) as Hs.
  unfold view_state. rewrite Hs.
  repeat split.
Qed.

(** The success path does not touch the error region or the input's
    decoration. *)
Lemma showSuccessMessage_error_frame (email : js_string) (d : Document) :
  errorMessage (showSuccessMessage email d) = errorMessage d
  /\ style (emailInput (showSuccessMessage email d)) = style (emailInput d)
  /\ NoError (showSuccessMessage email d) = NoError d.
Proof. repeat split. Qed.

Lemma step_error_only_on_rejected (t : Trigger) (d : Document) :
  error_only_on_rejected d -> error_only_on_rejected (step t d).
Proof.
  unfold error_only_on_rejected.
  assert (Hsubmit : forall event,
    NoError d = true \/ isValidEmail (value (emailInput d)) = false ->
    NoError (snd (submitBtn_onclick event d)) = true
    \/ isValidEmail (value (emailInput (snd (submitBtn_onclick event d))))
       = false).
  { intros event H. rewrite submitBtn_onclick_document. cbv zeta.
    destruct (value (emailInput d) === lit "") eqn:E.
    - right. apply is_empty_string in E.
      change (value (emailInput (showError (lit "Email is required") d)))
        with (value (emailInput d)).
      rewrite E. apply isValidEmail_empty.
    - destruct (isValidEmail (value (emailInput d))) eqn:V.
      + right. apply isValidEmail_empty.
      + right. exact V. }
  intros H. destruct t as [v|event| |event]; cbn [step].
  - left. reflexivity.
  - now apply Hsubmit.
  - left. reflexivity.
  - unfold emailInput_onkeypress, submitBtn_click.
    destruct (key event === lit "Enter"); cbn [snd]; [now apply Hsubmit|].
    exact H.
Qed.

Lemma run_error_only_on_rejected (ts : list Trigger) :
  forall d, error_only_on_rejected d -> error_only_on_rejected (run ts d).
Proof.
  induction ts as [|t ts IH]; intros d H; cbn [run]; [assumption|].
  apply IH. now apply step_error_only_on_rejected.
Qed.

(** C8, as amended. The success transition leaves the error text, its
    visibility and the input's decoration as they were. In a document
    reached by triggers from one without an error, a submit that succeeds
    starts without an error, since the input change that made the value
    well-formed had cleared it, and so ends without one. *)
Theorem success_after_triggers_has_no_error
    (d0 : Document) (ts : list Trigger) (event : Event) :
  NoError d0 = true ->
  isValidEmail (value (emailInput (run ts d0))) = true ->
  let d := run ts d0 in
  let d' := snd (submitBtn_onclick event d) in
  NoError d' = true
  /\ errorMessage d' = errorMessage d
  /\ style (emailInput d') = style (emailInput d).
Proof.
  intros H0 V d d'. subst d'. fold d in V.
  rewrite (submit_accepted event d V).
  destruct (showSuccessMessage_error_frame (value (emailInput d)) d)
    as (Hm & Hs & Hn).
  rewrite Hn. repeat split.
  destruct (run_error_only_on_rejected ts d0 (or_introl H0)) as [H|H].
  - exact H.
  - fold d in H. congruence.
Qed.

(** C9. A submit that fails validation changes the text and the display of
    the error region and the border and background of the input, and
    nothing else: the value of the input, the display region and every
    other property stay as they were. *)
Theorem submit_invalid_frame (event : Event) (d : Document) :
  value (emailInput d) = [] \/ isValidEmail (value (emailInput d)) = false ->
  let d' := snd (submitBtn_onclick event d) in
  value (emailInput d') = value (emailInput d)
  /\ textContent (emailInput d') = textContent (emailInput d)
  /\ classList (emailInput d') = classList (emailInput d)
  /\ display (style (emailInput d')) = display (style (emailInput d))
  /\ value (errorMessage d') = value (errorMessage d)
  /\ classList (errorMessage d') = classList (errorMessage d)
  /\ borderColor (style (errorMessage d'))
     = borderColor (style (errorMessage d))
  /\ backgroundColor (style (errorMessage d'))
     = backgroundColor (style (errorMessage d))
  /\ emailDisplay d' = emailDisplay d
  /\ successMessage d' = successMessage d
  /\ main_area d' = main_area d
  /\ header_img d' = header_img d.
Proof.
  intros H d'. subst d'. rewrite (submit_rejected event d H).
  repeat split.
Qed.

(** Only a successful submit writes the display region. *)
Lemma step_emailDisplay (t : Trigger) (d : Document) :
  successful_submit t d = false -> emailDisplay (step t d) = emailDisplay d.
Proof.
  assert (Hsubmit : forall event,
    isValidEmail (value (emailInput d)) = false ->
    emailDisplay (snd (submitBtn_onclick event d)) = emailDisplay d).
  { intros event V. rewrite (submit_rejected event d (or_intror V)).
    reflexivity. }
  unfold successful_submit.
  destruct t as [v|event| |event]; cbn [step submits andb]; intros H.
  - reflexivity.
  - now apply Hsubmit.
  - reflexivity.
  - unfold emailInput_onkeypress, submitBtn_click.
    destruct (key event === lit "Enter"); cbn [snd andb] in *;
      [now apply Hsubmit|reflexivity].
Qed.

Lemma run_emailDisplay (ts : list Trigger) :
  forall d, no_successful_submit ts d = true ->
            emailDisplay (run ts d) = emailDisplay d.
Proof.
  induction ts as [|t ts IH]; intros d H; cbn [run]; [reflexivity|].
  cbn [no_successful_submit] in H. apply andb_true_iff in H as [Ht Hts].
  apply negb_true_iff in Ht.
  rewrite (IH _ Hts). now apply step_emailDisplay.
Qed.

(** C10. Dismiss leaves the value of the input and the display region as
    they were, and the display region then keeps its text through every
    sequence of triggers without a successful submit. *)
Theorem dismiss_keeps_value_and_display (d : Document) (ts : list Trigger) :
  no_successful_submit ts (dismissBtn_onclick d) = true ->
  let d' := dismissBtn_onclick d in
  value (emailInput d') = value (emailInput d)
  /\ emailDisplay d' = emailDisplay d
  /\ emailDisplay (run ts d') = emailDisplay d.
Proof.
  intros H d'. subst d'. repeat split.
  now rewrite (run_emailDisplay ts _ H).
Qed.

(** ** More on the email-shape check *)

Lemma is_ascii_letter_iff (c : code_unit) :
  is_ascii_letter c = true <-> (65 <= c <= 90) \/ (97 <= c <= 122).
Proof.
  unfold is_ascii_letter.
  now rewrite orb_true_iff, !andb_true_iff, !N.leb_le.
Qed.

Lemma letter_not_white_space (c : code_unit) :
  is_ascii_letter c = true -> is_white_space c = false.
Proof.
  intros H. apply is_ascii_letter_iff in H.
  destruct (is_white_space c) eqn:E; [|reflexivity].
  apply white_space_cases in E. lia.
Qed.

Lemma last_two {A} (l : list A) :
  (2 <= length l)%nat -> exists p a b, l = p ++ [a; b].
Proof.
  intros H. destruct (rev l) as [|b [|a r]] eqn:E.
  - apply (f_equal (@length A)) in E. rewrite length_rev in E.
    simpl in E. lia.
  - apply (f_equal (@length A)) in E. rewrite length_rev in E.
    simpl in E. lia.
  - exists (rev r), a, b. rewrite <- (rev_involutive l), E. simpl.
    now rewrite <- app_assoc.
Qed.

Lemma forallb_map_agree {A} (p : A -> bool) (g : A -> A) (l : list A) :
  (forall a, p (g a) = p a) -> forallb p (map g l) = forallb p l.
Proof.
  intros H. induction l as [|x l IH]; simpl; [reflexivity|].
  now rewrite H, IH.
Qed.

Lemma is_ascii_letter_upper (c : code_unit) :
  is_ascii_letter (ascii_upper c) = is_ascii_letter c.
Proof.
  apply eq_true_iff_eq. rewrite !is_ascii_letter_iff.
  destruct (ascii_upper_cases c) as [[H ->]|[H ->]]; [lia|reflexivity].
Qed.

Lemma is_white_space_upper (c : code_unit) :
  is_white_space (ascii_upper c) = is_white_space c.
Proof.
  destruct (ascii_upper_cases c) as [[H E]|[H ->]]; [|reflexivity].
  rewrite E. rewrite !letter_not_white_space; [reflexivity| |];
    apply is_ascii_letter_iff; lia.
Qed.

Lemma name_char_upper (c : code_unit) :
  name_char (ascii_upper c) = name_char c.
Proof.
  unfold name_char. rewrite is_white_space_upper. do 2 f_equal.
  destruct (ascii_upper_cases c) as [[H ->]|[H ->]]; [|reflexivity].
  transitivity false; [apply N.eqb_neq|symmetry; apply N.eqb_neq]; lia.
Qed.

Lemma ascii_upper_punctuation (c k : code_unit) :
  k < 65 -> ascii_upper c = k -> c = k.
Proof.
  intros Hk E. destruct (ascii_upper_cases c) as [[H E']|[H E']]; lia.
Qed.

Lemma email_shape_upper (s : js_string) :
  email_shape (map ascii_upper s) <-> email_shape s.
Proof.
  unfold email_shape. split.
  - intros (l' & d' & t' & E & Hl & Hal & Hd & Had & Ht & Hat).
    apply map_eq_app in E as (l & r1 & -> & <- & E).
    apply map_eq_cons in E as (x & r2 & -> & Ex & E).
    apply map_eq_app in E as (d & r3 & -> & <- & E).
    apply map_eq_cons in E as (y & t & -> & Ey & <-).
    apply ascii_upper_punctuation in Ex, Ey; try lia. subst x y.
    rewrite length_map in Hl, Hd, Ht.
    rewrite (forallb_map_agree name_char) in Hal, Had
      by apply name_char_upper.
    rewrite (forallb_map_agree is_ascii_letter) in Hat
      by apply is_ascii_letter_upper.
    exists l, d, t. repeat split; assumption.
  - intros (l & d & t & -> & Hl & Hal & Hd & Had & Ht & Hat).
    exists (map ascii_upper l), (map ascii_upper d), (map ascii_upper t).
    rewrite !length_map.
    rewrite !(forallb_map_agree name_char) by apply name_char_upper.
    rewrite (forallb_map_agree is_ascii_letter)
      by apply is_ascii_letter_upper.
    repeat split; try assumption.
    rewrite map_app. cbn [map]. rewrite map_app. reflexivity.
Qed.

(** X1. The check does no trimming: a value with a white space character
    anywhere in it, at either end or inside, is rejected. *)
Theorem isValidEmail_rejects_white_space (s : js_string) (c : code_unit) :
  white_space_caseless ->
  In c s -> is_white_space c = true ->
  isValidEmail s = false.
Proof.
  intros Hws Hin Hc. destruct (isValidEmail s) eqn:V; [|reflexivity].
  apply isValidEmail_shape in V; [|assumption].
  destruct V as (local & domain & tld & -> & _ & Hl & _ & Hd & _ & Ht).
  rewrite forallb_forall in Hl, Hd, Ht. exfalso.
  apply in_app_or in Hin as [Hin|[<-|Hin]].
  - specialize (Hl _ Hin). unfold name_char in Hl.
    rewrite Hc in Hl. discriminate.
  - vm_compute in Hc. discriminate.
  - apply in_app_or in Hin as [Hin|[<-|Hin]].
    + specialize (Hd _ Hin). unfold name_char in Hd.
      rewrite Hc in Hd. discriminate.
    + vm_compute in Hc. discriminate.
    + specialize (Ht _ Hin). apply letter_not_white_space in Ht. congruence.
Qed.

(** X2. Whatever the engine's case table, an accepted value has at least
    six code units and ends in two ASCII letters: under the i flag no code
    unit from 128 on passes for a letter of [a-z]. *)
Theorem isValidEmail_ends_in_ascii_letters (s : js_string) :
  isValidEmail s = true ->
  (6 <= length s)%nat
  /\ exists p a b,
       s = p ++ [a; b]
       /\ is_ascii_letter a = true /\ is_ascii_letter b = true.
Proof.
  intros V. unfold isValidEmail, emailRegex in V.
  apply shape_pattern_matches in V
    as (local & x & domain & y & tld & -> & Hl & _ & _ & Hd & _ & _
        & Ht & Hat).
  rewrite (forallb_agree
             (atom_matches true (CharacterClass false [ClassRange 97 122]))
             is_ascii_letter) in Hat by apply letters_class_matches_i.
  split.
  - rewrite length_app. cbn [length]. rewrite length_app. cbn [length]. lia.
  - destruct (last_two tld Ht) as (p & a & b & ->).
    rewrite forallb_app in Hat. apply andb_true_iff in Hat as [_ Hab].
    cbn [forallb] in Hab. rewrite andb_true_r in Hab.
    apply andb_true_iff in Hab as [Ha Hb].
    exists (local ++ x :: domain ++ y :: p), a, b.
    repeat split; try assumption.
    rewrite <- app_assoc. cbn [app]. rewrite <- app_assoc. reflexivity.
Qed.

(** X3. The check does not tell the case of ASCII letters: a value and the
    value with every letter a-z in upper case get the same answer. *)
Theorem isValidEmail_ignores_case (s : js_string) :
  white_space_caseless ->
  isValidEmail (map ascii_upper s) = isValidEmail s.
Proof.
  intros Hws. apply eq_true_iff_eq.
  rewrite !isValidEmail_shape by assumption.
  apply email_shape_upper.
Qed.

(** ** More on the listeners *)

Lemma successful_submit_step (t : Trigger) (d : Document) :
  successful_submit t d = true ->
  step t d = showSuccessMessage (value (emailInput d)) d.
Proof.
  unfold successful_submit. intros H. apply andb_true_iff in H as [Ht V].
  destruct t as [v|event| |event]; cbn [submits] in Ht; try discriminate;
    cbn [step].
  - now apply submit_accepted.
  - unfold emailInput_onkeypress, submitBtn_click. rewrite Ht. cbn [snd].
    now apply submit_accepted.
Qed.

Lemma rejected_submit_step (t : Trigger) (d : Document) :
  submits t = true -> isValidEmail (value (emailInput d)) = false ->
  step t d
  = showError (if value (emailInput d) === lit ""
               then lit "Email is required"
               else lit "Please enter a valid email address") d.
Proof.
  intros Ht V.
  destruct t as [v|event| |event]; cbn [submits] in Ht; try discriminate;
    cbn [step].
  - apply submit_rejected. now right.
  - unfold emailInput_onkeypress, submitBtn_click. rewrite Ht. cbn [snd].
    apply submit_rejected. now right.
Qed.

Lemma idle_key_step (event : KeyboardEvent) (d : Document) :
  submits (KeyPress event) = false -> step (KeyPress event) d = d.
Proof.
  cbn [submits step]. unfold emailInput_onkeypress. now intros ->.
Qed.

(** X4. The two error functions overwrite each other and the last one
    wins: clearing after an error leaves what clearing alone leaves, an
    error after clearing or after another error leaves what that error
    alone leaves, and each function done twice is the function done
    once. *)
Theorem error_functions_last_wins (m1 m2 : js_string) (d : Document) :
  clearError (showError m1 d) = clearError d
  /\ showError m2 (clearError d) = showError m2 d
  /\ showError m2 (showError m1 d) = showError m2 d
  /\ clearError (clearError d) = clearError d.
Proof. repeat split. Qed.

Lemma step_error_matches_value (t : Trigger) (d : Document) :
  error_matches_value d -> error_matches_value (step t d).
Proof.
  intros H. destruct (submits t) eqn:Ht.
  - destruct (isValidEmail (value (emailInput d))) eqn:V.
    + rewrite successful_submit_step
        by (unfold successful_submit; now rewrite Ht, V).
      left. destruct H as [H|[[_ H]|[_ [_ H]]]].
      * exact H.
      * rewrite H, isValidEmail_empty in V. discriminate.
      * congruence.
    + rewrite (rejected_submit_step t d Ht V).
      destruct (value (emailInput d) === lit "") eqn:E.
      * right; left. split; [apply ErrorShown_showError|].
        now apply is_empty_string.
      * right; right. split; [apply ErrorShown_showError|].
        split; [|exact V]. intros Hnil.
        change (value (emailInput d) = []) in Hnil.
        apply (proj2 (is_empty_string _)) in Hnil. congruence.
  - destruct t as [v|event| |event]; cbn [submits] in Ht;
      try discriminate.
    + left. reflexivity.
    + left. reflexivity.
    + now rewrite idle_key_step.
Qed.

(** X5. The message on display always fits the value in the input. From a
    document where it does (one without an error, for one), after every
    sequence of triggers there is no error, or "Email is required" stands
    over an empty input, or "Please enter a valid email address" stands
    over a value, not empty, that the check rejects. *)
Theorem error_always_matches_value (ts : list Trigger) (d : Document) :
  error_matches_value d -> error_matches_value (run ts d).
Proof.
  revert d. induction ts as [|t ts IH]; intros d H; cbn [run];
    [assumption|].
  apply IH. now apply step_error_matches_value.
Qed.

Lemma step_display_text (t : Trigger) (d : Document) :
  textContent (emailDisplay (step t d)) = textContent (emailDisplay d)
  \/ isValidEmail (textContent (emailDisplay (step t d))) = true.
Proof.
  destruct (successful_submit t d) eqn:S.
  - right. rewrite (successful_submit_step t d S).
    unfold successful_submit in S. apply andb_true_iff in S as [_ V].
    exact V.
  - left. now rewrite step_emailDisplay.
Qed.

(** X6. The display region never shows a value the check rejects: after
    every sequence of triggers its text is the text it started with or a
    value that passes the check. *)
Theorem display_region_shows_accepted_value
    (ts : list Trigger) (d : Document) :
  textContent (emailDisplay (run ts d)) = textContent (emailDisplay d)
  \/ isValidEmail (textContent (emailDisplay (run ts d))) = true.
Proof.
  revert d. induction ts as [|t ts IH]; intros d; cbn [run];
    [left; reflexivity|].
  destruct (IH (step t d)) as [E|V]; [|right; exact V].
  rewrite E. apply step_display_text.
Qed.

(** X7. A submit right after a successful one finds the input empty: it
    puts "Email is required" on display under the success view, leaves the
    display region alone, and the dismiss that follows clears the error
    again. *)
Theorem submit_after_success_shows_required
    (event1 event2 : Event) (d : Document) :
  isValidEmail (value (emailInput d)) = true ->
  let d1 := step (SubmitClick event1) d in
  let d2 := step (SubmitClick event2) d1 in
  ErrorShown (lit "Email is required") d2 = true
  /\ view_state d2 = Some SuccessVisible
  /\ emailDisplay d2 = emailDisplay d1
  /\ textContent (emailDisplay d2) = value (emailInput d)
  /\ NoError (dismissBtn_onclick d2) = true.
Proof.
  intros V d1 d2. subst d2 d1. cbn [step].
  rewrite (submit_accepted event1 d V).
  rewrite (submit_rejected event2
             (showSuccessMessage (value (emailInput d)) d))
    by (left; reflexivity).
  split; [apply ErrorShown_showError|].
  split; [|repeat split].
  pose proof (success_visible_showSuccessMessage (value (emailInput d)) d)
    as Hs.
  unfold view_state.
  change (success_visible (showError _ (showSuccessMessage _ d)))
    with (success_visible (showSuccessMessage (value (emailInput d)) d)).
  now rewrite Hs.
Qed.

Lemma contains_other_removed (t token : js_string) (l : list js_string) :
  t <> token ->
  contains t (filter (fun x => negb (x === token)) l) = contains t l.
Proof.
  intros Hne. unfold contains.
  induction l as [|x l IH]; simpl; [reflexivity|].
  destruct (x === token) eqn:E; simpl; rewrite IH; [|reflexivity].
  apply strict_equals_eq in E. subst x.
  apply not_eq_sym, strict_equals_neq in Hne. now rewrite Hne.
Qed.

Lemma contains_other_added (t token : js_string) (l : list js_string) :
  t <> token ->
  contains t (if contains token l then l else l ++ [token]) = contains t l.
Proof.
  intros Hne. destruct (contains token l); [reflexivity|].
  unfold contains. rewrite existsb_app. simpl.
  apply not_eq_sym, strict_equals_neq in Hne.
  now rewrite Hne, !orb_false_r.
Qed.

Lemma step_classes (t : Trigger) (d : Document) :
  classList (emailInput (step t d)) = classList (emailInput d)
  /\ classList (errorMessage (step t d)) = classList (errorMessage d)
  /\ classList (emailDisplay (step t d)) = classList (emailDisplay d)
  /\ classList (main_area (step t d)) = classList (main_area d)
  /\ classList (header_img (step t d)) = classList (header_img d)
  /\ (forall token, token <> lit "hidden" ->
        contains token (classList (successMessage (step t d)))
        = contains token (classList (successMessage d))).
Proof.
  destruct (submits t) eqn:Ht.
  - destruct (isValidEmail (value (emailInput d))) eqn:V.
    + rewrite successful_submit_step
        by (unfold successful_submit; now rewrite Ht, V).
      repeat split. intros token Hne.
      now apply contains_other_removed.
    + rewrite (rejected_submit_step t d Ht V). repeat split.
  - destruct t as [v|event| |event]; cbn [submits] in Ht;
      try discriminate.
    + repeat split.
    + repeat split. intros token Hne. now apply contains_other_added.
    + rewrite idle_key_step by assumption. repeat split.
Qed.

(** X8. The only class the script ever adds or removes is ['hidden'], and
    only on the success region: after every sequence of triggers the class
    lists of the other elements are as they were, and the success region
    carries the same classes other than ['hidden']. *)
Theorem only_hidden_class_changes (ts : list Trigger) (d : Document) :
  classList (emailInput (run ts d)) = classList (emailInput d)
  /\ classList (errorMessage (run ts d)) = classList (errorMessage d)
  /\ classList (emailDisplay (run ts d)) = classList (emailDisplay d)
  /\ classList (main_area (run ts d)) = classList (main_area d)
  /\ classList (header_img (run ts d)) = classList (header_img d)
  /\ (forall token, token <> lit "hidden" ->
        contains token (classList (successMessage (run ts d)))
        = contains token (classList (successMessage d))).
Proof.
  revert d. induction ts as [|t ts IH]; intros d; cbn [run];
    [repeat split|].
  destruct (IH (step t d)) as (H1 & H2 & H3 & H4 & H5 & H6).
  destruct (step_classes t d) as (S1 & S2 & S3 & S4 & S5 & S6).
  rewrite H1, H2, H3, H4, H5. repeat split; try assumption.
  intros token Hne. now rewrite H6, S6.
Qed.

Lemma step_header (t : Trigger) (d : Document) :
  header_visible d = form_visible d ->
  header_visible (step t d) = form_visible (step t d).
Proof.
  intros H. destruct (submits t) eqn:Ht.
  - destruct (isValidEmail (value (emailInput d))) eqn:V.
    + rewrite successful_submit_step
        by (unfold successful_submit; now rewrite Ht, V).
      reflexivity.
    + rewrite (rejected_submit_step t d Ht V). exact H.
  - destruct t as [v|event| |event]; cbn [submits] in Ht;
      try discriminate.
    + exact H.
    + reflexivity.
    + now rewrite idle_key_step.
Qed.

(** X9. The header decoration goes with the form region: from a document
    where the two are shown or hidden together, they are so after every
    sequence of triggers. *)
Theorem header_follows_form (ts : list Trigger) (d : Document) :
  header_visible d = form_visible d ->
  header_visible (run ts d) = form_visible (run ts d).
Proof.
  revert d. induction ts as [|t ts IH]; intros d H; cbn [run];
    [assumption|].
  apply IH. now apply step_header.
Qed.

(** X10. The value in the input is what was typed, untouched: a trigger
    leaves it as the new value when it is an input change, empty when it is
    a successful submit, and as it was in every other case. *)
Theorem input_value_after_step (t : Trigger) (d : Document) :
  value (emailInput (step t d))
  = match t with
    | InputChange v => v
    | _ => if successful_submit t d then lit ""
           else value (emailInput d)
    end.
Proof.
  destruct (successful_submit t d) eqn:S.
  - rewrite (successful_submit_step t d S).
    destruct t; try reflexivity.
    unfold successful_submit in S. discriminate.
  - unfold successful_submit in S.
    destruct (submits t) eqn:Ht.
    + cbn [andb] in S. rewrite (rejected_submit_step t d Ht S).
      destruct t; try reflexivity. discriminate.
    + destruct t as [v|event| |event]; cbn [submits] in Ht;
        try discriminate; try reflexivity.
      now rewrite idle_key_step.
Qed.

End Script.

(** ** The statements at work on sample documents *)

Lemma no_case_pairs_caseless : white_space_caseless no_case_pairs.
Proof.
  intros ch cu _ E _. unfold no_case_pairs in E. now injection E.
Qed.

Lemma isValidEmail_spec_witness :
  white_space_caseless no_case_pairs
  /\ email_shape (lit "user@example.com")
  /\ isValidEmail no_case_pairs (lit "a@@b.com") = false.
Proof.
  split; [exact no_case_pairs_caseless|].
  destruct (isValidEmail_spec no_case_pairs no_case_pairs_caseless)
    as (Hshape & _ & _ & _ & _ & _ & Hat).
  split; [|exact Hat].
  apply Hshape. vm_compute. reflexivity.
Defined.

Lemma submit_invalid_shows_error_witness :
  ErrorShown (lit "Email is required")
    (snd (submitBtn_onclick no_case_pairs a_click page_load)) = true
  /\ ErrorShown (lit "Please enter a valid email address")
       (snd (submitBtn_onclick no_case_pairs a_click (filled (lit "a@b"))))
     = true
  /\ view_state (snd (submitBtn_onclick no_case_pairs a_click
                        (filled (lit "a@b"))))
     = Some FormVisible.
Proof.
  split; [|split].
  - apply (submit_invalid_shows_error no_case_pairs a_click page_load).
    left. reflexivity.
  - apply (submit_invalid_shows_error no_case_pairs a_click
             (filled (lit "a@b"))).
    right. vm_compute. reflexivity.
  - destruct (submit_invalid_shows_error no_case_pairs a_click
                (filled (lit "a@b"))) as (_ & _ & _ & _ & _ & _ & _ & _ & _
                                          & _ & Hview).
    + right. vm_compute. reflexivity.
    + exact Hview.
Defined.

Lemma submit_valid_shows_success_witness :
  view_state (snd (submitBtn_onclick no_case_pairs a_click
                     (filled (lit "user@example.com"))))
  = Some SuccessVisible
  /\ textContent (emailDisplay (snd (submitBtn_onclick no_case_pairs a_click
                                       (filled (lit "user@example.com")))))
     = lit "user@example.com"
  /\ value (emailInput (snd (submitBtn_onclick no_case_pairs a_click
                               (filled (lit "user@example.com")))))
     = lit "".
Proof.
  destruct (submit_valid_shows_success no_case_pairs a_click
              (filled (lit "user@example.com")))
    as (_ & _ & _ & Hview & _ & _ & _ & Htext & Hvalue).
  - vm_compute. reflexivity.
  - repeat split; assumption.
Defined.

Lemma exactly_one_region_visible_witness :
  xorb
    (form_visible
       (run no_case_pairs
          [InputChange (lit "a@b"); SubmitClick a_click;
           InputChange (lit "user@example.com"); KeyPress enter_key;
           DismissClick; SubmitClick a_click] page_load))
    (success_visible
       (run no_case_pairs
          [InputChange (lit "a@b"); SubmitClick a_click;
           InputChange (lit "user@example.com"); KeyPress enter_key;
           DismissClick; SubmitClick a_click] page_load))
  = true.
Proof.
  apply (exactly_one_region_visible no_case_pairs page_load); reflexivity.
Defined.

Lemma input_change_clears_error_witness :
  NoError (step no_case_pairs (InputChange (lit "x"))
             (showError (lit "Email is required") page_load)) = true
  /\ errorMessage (step no_case_pairs (InputChange (lit "x"))
                     (clearError page_load))
     = errorMessage (clearError page_load).
Proof.
  split.
  - apply (input_change_clears_error no_case_pairs (lit "x")
             (showError (lit "Email is required") page_load)).
  - destruct (input_change_clears_error no_case_pairs (lit "x")
                (clearError page_load))
      as (_ & _ & _ & _ & _ & _ & _ & Hsame).
    apply Hsame. reflexivity.
Defined.



Lemma dismiss_returns_to_form_witness :
  success_visible signed_up = true
  /\ view_state (dismissBtn_onclick signed_up) = Some FormVisible
  /\ NoError (dismissBtn_onclick signed_up) = true.
Proof.
  split; [reflexivity|].
  destruct (dismiss_returns_to_form signed_up)
    as (_ & _ & _ & Hview & _ & _ & _ & Hnone).
  - reflexivity.
  - split; assumption.
Defined.

(** C8, as stated, fails: with an error on display and a well-formed value
    in the input, the submit succeeds and the error is still there. *)
Lemma success_keeps_stale_error :
  isValidEmail no_case_pairs (value (emailInput stale_error)) = true
  /\ ErrorShown (lit "Email is required") stale_error = true
  /\ view_state (snd (submitBtn_onclick no_case_pairs a_click stale_error))
     = Some SuccessVisible
  /\ ErrorShown (lit "Email is required")
       (snd (submitBtn_onclick no_case_pairs a_click stale_error)) = true
  /\ NoError (snd (submitBtn_onclick no_case_pairs a_click stale_error))
     = false.
Proof. vm_compute. repeat split. Qed.

Lemma success_after_triggers_has_no_error_witness :
  NoError
    (snd (submitBtn_onclick no_case_pairs a_click
            (run no_case_pairs
               [InputChange (lit "a@b"); SubmitClick a_click;
                InputChange (lit "user@example.com")] page_load)))
  = true.
Proof.
  apply (success_after_triggers_has_no_error no_case_pairs page_load
           [InputChange (lit "a@b"); SubmitClick a_click;
            InputChange (lit "user@example.com")] a_click).
  - reflexivity.
  - vm_compute. reflexivity.
Defined.

Lemma submit_invalid_frame_witness :
  value (emailInput (snd (submitBtn_onclick no_case_pairs a_click
                            (filled (lit "a@b"))))) = lit "a@b"
  /\ emailDisplay (snd (submitBtn_onclick no_case_pairs a_click signed_up))
     = emailDisplay signed_up.
Proof.
  split.
  - apply (submit_invalid_frame no_case_pairs a_click (filled (lit "a@b"))).
    right. vm_compute. reflexivity.
  - apply (submit_invalid_frame no_case_pairs a_click signed_up).
    left. reflexivity.
Defined.

Lemma dismiss_keeps_value_and_display_witness :
  textContent
    (emailDisplay
       (run no_case_pairs
          [InputChange (lit "a@b"); SubmitClick a_click; KeyPress enter_key]
          (dismissBtn_onclick signed_up)))
  = lit "user@example.com"
  /\ value (emailInput (dismissBtn_onclick signed_up)) = lit "".
Proof.
  destruct (dismiss_keeps_value_and_display no_case_pairs signed_up
              [InputChange (lit "a@b"); SubmitClick a_click;
               KeyPress enter_key]) as (Hvalue & _ & Hkept).
  - vm_compute. reflexivity.
  - split; [now rewrite Hkept | now rewrite Hvalue].
Defined.

Lemma isValidEmail_rejects_white_space_witness :
  isValidEmail no_case_pairs (lit " a@b.cd") = false
  /\ isValidEmail no_case_pairs (lit "a@b.cd ") = false.
Proof.
  split.
  - apply (isValidEmail_rejects_white_space no_case_pairs (lit " a@b.cd") 32).
    + exact no_case_pairs_caseless.
    + vm_compute. left. reflexivity.
    + reflexivity.
  - apply (isValidEmail_rejects_white_space no_case_pairs (lit "a@b.cd ") 32).
    + exact no_case_pairs_caseless.
    + vm_compute. do 6 right. left. reflexivity.
    + reflexivity.
Defined.

Lemma isValidEmail_ends_in_ascii_letters_witness :
  (6 <= length (lit "user@example.com"))%nat.
Proof.
  apply (isValidEmail_ends_in_ascii_letters no_case_pairs
           (lit "user@example.com")).
  vm_compute. reflexivity.
Defined.

Lemma isValidEmail_ignores_case_witness :
  isValidEmail no_case_pairs (map ascii_upper (lit "user@example.com"))
  = isValidEmail no_case_pairs (lit "user@example.com").
Proof.
  apply (isValidEmail_ignores_case no_case_pairs (lit "user@example.com")).
  exact no_case_pairs_caseless.
Defined.

Lemma error_always_matches_value_witness :
  error_matches_value no_case_pairs
    (run no_case_pairs
       [InputChange (lit "a@b"); SubmitClick a_click; KeyPress enter_key]
       page_load).
Proof.
  apply (error_always_matches_value no_case_pairs).
  left. reflexivity.
Defined.

Lemma submit_after_success_shows_required_witness :
  ErrorShown (lit "Email is required")
    (step no_case_pairs (SubmitClick a_click)
       (step no_case_pairs (SubmitClick a_click)
          (filled (lit "user@example.com")))) = true.
Proof.
  apply (submit_after_success_shows_required no_case_pairs a_click a_click
           (filled (lit "user@example.com"))).
  vm_compute. reflexivity.
Defined.

Lemma only_hidden_class_changes_witness :
  contains (lit "card")
    (classList
       (successMessage
          (run no_case_pairs
             [InputChange (lit "user@example.com"); SubmitClick a_click;
              DismissClick]
             (with_successMessage (classList_add (lit "card")) page_load))))
  = contains (lit "card")
      (classList
         (successMessage
            (with_successMessage (classList_add (lit "card")) page_load))).
Proof.
  destruct (only_hidden_class_changes no_case_pairs
              [InputChange (lit "user@example.com"); SubmitClick a_click;
               DismissClick]
              (with_successMessage (classList_add (lit "card")) page_load))
    as (_ & _ & _ & _ & _ & Hkept).
  apply Hkept. intros H. vm_compute in H. discriminate H.
Defined.

Lemma header_follows_form_witness :
  header_visible
    (run no_case_pairs
       [InputChange (lit "user@example.com"); KeyPress enter_key] page_load)
  = form_visible
      (run no_case_pairs
         [InputChange (lit "user@example.com"); KeyPress enter_key]
         page_load).
Proof.
  apply (header_follows_form no_case_pairs). reflexivity.
Defined.
